(** * StandardCosmologyWrapper: the Cosmology-API wrapper around a CLASS solver

    A shallow embedding of [src/cosmology/compat/classy/_standard.py].

    Numbers.  The wrapper computes with [float64] scalars and arrays.  The
    embedding takes them as real numbers: rounding, infinities and NaN are
    outside it, and so is the value numpy gives a division by zero or a
    function outside its domain.  A division of two Python floats is not
    numpy's: it raises [ZeroDivisionError] on a zero divisor.  An array is a
    scalar (a 0-d array) or a one-dimensional sequence.

    Effects.  A method either returns or raises; on the way it may evaluate
    operations whose domain is restricted (a division, a square root, an
    inverse sine or inverse hyperbolic sine).  A computation is therefore a
    pair: the list of these evaluations in the order Python performs them, and
    the outcome. *)

From Stdlib Require Import Reals Lra List.
From stdpp Require Import gmap strings.
Import ListNotations.

Open Scope R_scope.

(** ** Arrays *)

(** [NDFloating]: a 0-d array or a 1-d array of [float64]. *)
Inductive NDFloating : Type :=
  | Scalar (x : R)
  | Array (xs : list R).

(** [InputT]: the redshift argument, a scalar or an array of redshifts. *)
Abbreviation InputT := NDFloating.

Inductive Exception : Type :=
  | NotImplementedError
  | ValueError
  | KeyError
  | ZeroDivisionError.

(** The evaluations a computation records. *)
Inductive event : Type :=
  | EvDiv (num den : NDFloating)
  | EvSqrt (a : NDFloating)
  | EvArcsinh (a : NDFloating)
  | EvArcsin (a : NDFloating).

(** ** Computations *)

Definition M (A : Type) : Type := (list event * (Exception + A))%type.

Definition ret {A} (a : A) : M A := ([], inr a).
Definition raise {A} (e : Exception) : M A := ([], inl e).
Definition tell (ev : event) : M unit := ([ev], inr tt).

Definition bind {A B} (m : M A) (k : A -> M B) : M B :=
  match m with
  | (t, inl e) => (t, inl e)
  | (t, inr a) => let '(t', r) := k a in (t ++ t', r)
  end.

#[global] Instance M_ret : MRet M := @ret.
#[global] Instance M_bind : MBind M := fun A B k m => bind m k.

(** What a computation evaluated, and how it ended. *)
Definition trace {A} (m : M A) : list event := fst m.
Definition outcome {A} (m : M A) : Exception + A := snd m.

Definition returns {A} (m : M A) (a : A) : Prop := outcome m = inr a.
Definition raises {A} (m : M A) (e : Exception) : Prop := outcome m = inl e.

(** ** numpy on scalars and 1-d arrays *)

(** A unary ufunc, and a binary one with a Python scalar on one side. *)
Definition nd_map (f : R -> R) (a : NDFloating) : NDFloating :=
  match a with
  | Scalar x => Scalar (f x)
  | Array xs => Array (map f xs)
  end.

(** A binary ufunc: a 0-d operand and a length-1 array broadcast against the
    other operand, equal lengths go element by element, other shapes raise. *)
Definition broadcast (f : R -> R -> R) (a b : NDFloating) : M NDFloating :=
  match a, b with
  | Scalar x, Scalar y => ret (Scalar (f x y))
  | Scalar x, Array ys => ret (Array (map (f x) ys))
  | Array xs, Scalar y => ret (Array (map (fun x => f x y) xs))
  | Array xs, Array ys =>
      if Nat.eqb (length xs) (length ys) then ret (Array (zip_with f xs ys))
      else match xs, ys with
           | [x], _ => ret (Array (map (f x) ys))
           | _, [y] => ret (Array (map (fun x => f x y) xs))
           | _, _ => raise ValueError
           end
  end.

Definition np_add := broadcast Rplus.
Definition np_sub := broadcast Rminus.
Definition np_mul := broadcast Rmult.

Definition np_div (a b : NDFloating) : M NDFloating :=
  tell (EvDiv a b) ;; broadcast Rdiv a b.

(** Python's [x / y] on two floats: the division is evaluated, and raises
    [ZeroDivisionError] on a zero divisor. *)
Definition py_div (x y : R) : M NDFloating :=
  tell (EvDiv (Scalar x) (Scalar y)) ;;
  if Req_dec_T y 0 then raise ZeroDivisionError else ret (Scalar (x / y)).

Definition np_pow (a : NDFloating) (n : nat) : NDFloating :=
  nd_map (fun x => x ^ n) a.

Definition np_abs (a : NDFloating) : NDFloating := nd_map Rabs a.

Definition np_sqrt (a : NDFloating) : M NDFloating :=
  tell (EvSqrt a) ;; ret (nd_map sqrt a).

Definition np_arcsinh (a : NDFloating) : M NDFloating :=
  tell (EvArcsinh a) ;; ret (nd_map arcsinh a).

Definition np_arcsin (a : NDFloating) : M NDFloating :=
  tell (EvArcsin a) ;; ret (nd_map asin a).

(** [numpy.vectorize(f)] with no [otypes]: [f] on every element in input
    order; a 0-d input gives a 0-d output; an input of size 0 raises
    [ValueError], since the output type is found by calling [f] on the first
    element. *)
Definition vectorize (f : R -> R) (z : InputT) : M NDFloating :=
  match z with
  | Scalar x => ret (Scalar (f x))
  | Array [] => raise ValueError
  | Array xs => ret (Array (map f xs))
  end.


(** ** The solver *)

(** The solver handle [self.cosmo]: a [classy.Class] whose background has been
    computed.  Its queries are scalar, one redshift in and one float out, and
    deterministic. *)
Module Classy.
Record t : Type := {
  Om_m : R -> R;
  Hubble : R -> R;
  angular_distance : R -> R;
  luminosity_distance : R -> R;
  Omega_Lambda : R;
  Omega_m : R;
  Omega0_k : R;
  Omega_r : R;
  Omega_b : R;
  Omega0_cdm : R;
  Omega_g : R;
  Neff : R;
  T_cmb : R
}.
End Classy.

(** ** The wrapper *)

Record StandardCosmologyWrapper : Type := {
  cosmo : Classy.t;
  _cosmo_fn : gmap string (InputT -> M NDFloating)
}.

(** [__post_init__]: [super().__post_init__()] has nothing to record on a
    solver of the right type; then the four vectorized queries are stored. *)
Definition __post_init__ (self : StandardCosmologyWrapper) : StandardCosmologyWrapper :=
  {| cosmo := cosmo self;
     _cosmo_fn :=
       <["Om_m" := vectorize (Classy.Om_m (cosmo self))]>
       (<["Hubble" := vectorize (Classy.Hubble (cosmo self))]>
       (<["angular_distance" := vectorize (Classy.angular_distance (cosmo self))]>
       (<["luminosity_distance" := vectorize (Classy.luminosity_distance (cosmo self))]>
        ∅))) |}.

(** [StandardCosmologyWrapper(cosmo)]: the dataclass constructor. *)
Definition new (solver : Classy.t) : StandardCosmologyWrapper :=
  __post_init__ {| cosmo := solver; _cosmo_fn := ∅ |}.

(** [d[key]] *)
Definition getitem {V} (d : gmap string V) (key : string) : M V :=
  match d !! key with
  | Some v => ret v
  | None => raise KeyError
  end.

(** ** Methods of [StandardCosmologyWrapper] *)

(** [_MPCS_KM_TO_GYR] *)
Definition _MPCS_KM_TO_GYR : NDFloating := Scalar 978.5.

(** [self.comoving_distance] and [self.comoving_transverse_distance] are
    looked up on [self] when the volume formulas call them: the formulas run
    against the class that provides the two primitives. *)
Class ComovingDistances : Type := {
  comoving_distance : StandardCosmologyWrapper -> InputT -> M NDFloating;
  comoving_transverse_distance : StandardCosmologyWrapper -> InputT -> M NDFloating
}.

(** The two primitives as [StandardCosmologyWrapper] itself defines them. *)
#[export] Instance this_revision : ComovingDistances := {|
  comoving_distance := fun _ _ => raise NotImplementedError;
  comoving_transverse_distance := fun _ _ => raise NotImplementedError
|}.

Section Methods.

(** [constants.c] and [constants.G], the two values the class reads from
    the constants module. *)
Variables c G : R.

(** *** HasTotalComponent *)

Definition Omega_tot0 (self : StandardCosmologyWrapper) : NDFloating :=
  Scalar (Classy.Omega_Lambda (cosmo self)
          + Classy.Omega_m (cosmo self)
          + Classy.Omega0_k (cosmo self)
          + Classy.Omega_r (cosmo self)).

Definition Omega_tot (self : StandardCosmologyWrapper) (z : InputT) : M NDFloating :=
  raise NotImplementedError.

(** *** HasGlobalCurvatureComponent *)

Definition Omega_k0 (self : StandardCosmologyWrapper) : NDFloating :=
  Scalar (Classy.Omega0_k (cosmo self)).

Definition Omega_k (self : StandardCosmologyWrapper) (z : InputT) : M NDFloating :=
  raise NotImplementedError.

(** *** HasMatterComponent *)

Definition Omega_m0 (self : StandardCosmologyWrapper) : NDFloating :=
  Scalar (Classy.Omega_m (cosmo self)).

Definition Omega_m (self : StandardCosmologyWrapper) (z : InputT) : M NDFloating :=
  f ← getitem (_cosmo_fn self) "Om_m"; f z.

(** *** HasBaryonComponent *)

Definition Omega_b0 (self : StandardCosmologyWrapper) : NDFloating :=
  Scalar (Classy.Omega_b (cosmo self)).

Definition Omega_b (self : StandardCosmologyWrapper) (z : InputT) : M NDFloating :=
  raise NotImplementedError.

(** *** HasNeutrinoComponent *)

Definition Omega_nu0 (self : StandardCosmologyWrapper) : M NDFloating :=
  raise NotImplementedError.

Definition Neff (self : StandardCosmologyWrapper) : NDFloating :=
  Scalar (Classy.Neff (cosmo self)).

Definition m_nu (self : StandardCosmologyWrapper) : M (list NDFloating) :=
  raise NotImplementedError.

Definition Omega_nu (self : StandardCosmologyWrapper) (z : InputT) : M NDFloating :=
  raise NotImplementedError.

(** *** HasDarkEnergyComponent *)

Definition Omega_de0 (self : StandardCosmologyWrapper) : NDFloating :=
  Scalar (Classy.Omega_Lambda (cosmo self)).

Definition Omega_de (self : StandardCosmologyWrapper) (z : InputT) : M NDFloating :=
  raise NotImplementedError.

(** *** HasDarkMatterComponent *)

Definition Omega_dm0 (self : StandardCosmologyWrapper) : NDFloating :=
  Scalar (Classy.Omega0_cdm (cosmo self)).

Definition Omega_dm (self : StandardCosmologyWrapper) (z : InputT) : M NDFloating :=
  raise NotImplementedError.

(** *** HasPhotonComponent *)

Definition Omega_gamma0 (self : StandardCosmologyWrapper) : NDFloating :=
  Scalar (Classy.Omega_g (cosmo self)).

Definition Omega_gamma (self : StandardCosmologyWrapper) (z : InputT) : M NDFloating :=
  raise NotImplementedError.

(** *** HasHubbleParameter

    (ahead of HasCriticalDensity, which reads [H0] and [H]) *)

Definition H0 (self : StandardCosmologyWrapper) : NDFloating :=
  Scalar (c * Classy.Hubble (cosmo self) 0).

(** [np.array(1 / self.cosmo.Hubble(0))]: the solver's rate is a Python
    float, so the division is Python's. *)
Definition hubble_distance (self : StandardCosmologyWrapper) : M NDFloating :=
  py_div 1 (Classy.Hubble (cosmo self) 0).

Definition hubble_time (self : StandardCosmologyWrapper) : M NDFloating :=
  np_div _MPCS_KM_TO_GYR (H0 self).

Definition H (self : StandardCosmologyWrapper) (z : InputT) : M NDFloating :=
  f ← getitem (_cosmo_fn self) "Hubble";
  h ← f z;
  np_mul (Scalar c) h.

Definition h_over_h0 (self : StandardCosmologyWrapper) (z : InputT) : M NDFloating :=
  f ← getitem (_cosmo_fn self) "Hubble";
  h ← f z;
  np_div h (Scalar (Classy.Hubble (cosmo self) 0)).

(** *** HasCriticalDensity *)

Definition critical_density0 (self : StandardCosmologyWrapper) : M NDFloating :=
  n ← np_mul (Scalar 3e6) (np_pow (H0 self) 2);
  np_div n (Scalar (8 * PI * G)).

Definition critical_density (self : StandardCosmologyWrapper) (z : InputT) : M NDFloating :=
  h ← H self z;
  n ← np_mul (Scalar 3e6) (np_pow h 2);
  np_div n (Scalar (8 * PI * G)).

(** *** Scale factor *)

Definition scale_factor0 (self : StandardCosmologyWrapper) : NDFloating :=
  Scalar 1.

Definition scale_factor (self : StandardCosmologyWrapper) (z : InputT) : M NDFloating :=
  z1 ← np_add z (Scalar 1);
  np_div (scale_factor0 self) z1.

(** *** Temperature *)

Definition Tcmb0 (self : StandardCosmologyWrapper) : NDFloating :=
  Scalar (Classy.T_cmb (cosmo self)).

Definition Tcmb (self : StandardCosmologyWrapper) (z : InputT) : M NDFloating :=
  z1 ← np_add z (Scalar 1);
  np_mul (Tcmb0 self) z1.

(** *** Time *)

Definition age (self : StandardCosmologyWrapper) (z : InputT) : M NDFloating :=
  raise NotImplementedError.

Definition lookback_time (self : StandardCosmologyWrapper) (z : InputT) : M NDFloating :=
  raise NotImplementedError.

(** *** Comoving distance and volume *)

Context {cls : ComovingDistances}.

Definition _comoving_volume_flat (self : StandardCosmologyWrapper) (z : InputT) : M NDFloating :=
  (* 4.0 / 3.0 * np.pi * self.comoving_distance(z) ** 3, left to right *)
  q ← py_div 4 3;
  k ← np_mul q (Scalar PI);
  d ← comoving_distance self z;
  np_mul k (np_pow d 3).

Definition _comoving_volume_positive (self : StandardCosmologyWrapper) (z : InputT) : M NDFloating :=
  (* dh = self.hubble_distance *)
  dh ← hubble_distance self;
  (* x = self.comoving_transverse_distance(z) / dh *)
  d ← comoving_transverse_distance self z;
  x ← np_div d dh;
  (* term1 = 4.0 * np.pi * dh**3 / (2.0 * self.Omega_k0) *)
  n ← np_mul (Scalar (4 * PI)) (np_pow dh 3);
  k2 ← np_mul (Scalar 2) (Omega_k0 self);
  term1 ← np_div n k2;
  (* term2 = x * np.sqrt(1 + self.Omega_k0 * (x) ** 2) *)
  kx2 ← np_mul (Omega_k0 self) (np_pow x 2);
  r ← np_add (Scalar 1) kx2;
  s ← np_sqrt r;
  term2 ← np_mul x s;
  (* term3 = np.sqrt(np.abs(self.Omega_k0)) * x *)
  sk ← np_sqrt (np_abs (Omega_k0 self));
  term3 ← np_mul sk x;
  (* term1 * (term2 - 1.0 / np.sqrt(np.abs(self.Omega_k0)) * np.arcsinh(term3)) *)
  sk' ← np_sqrt (np_abs (Omega_k0 self));
  inv ← np_div (Scalar 1) sk';
  a ← np_arcsinh term3;
  p ← np_mul inv a;
  diff ← np_sub term2 p;
  np_mul term1 diff.

Definition _comoving_volume_negative (self : StandardCosmologyWrapper) (z : InputT) : M NDFloating :=
  (* dh = self.hubble_distance *)
  dh ← hubble_distance self;
  (* x = self.comoving_transverse_distance(z) / dh *)
  d ← comoving_transverse_distance self z;
  x ← np_div d dh;
  (* term1 = 4.0 * np.pi * dh**3 / (2.0 * self.Omega_k0) *)
  n ← np_mul (Scalar (4 * PI)) (np_pow dh 3);
  k2 ← np_mul (Scalar 2) (Omega_k0 self);
  term1 ← np_div n k2;
  (* term2 = x * np.sqrt(1 + self.Omega_k0 * (x) ** 2) *)
  kx2 ← np_mul (Omega_k0 self) (np_pow x 2);
  r ← np_add (Scalar 1) kx2;
  s ← np_sqrt r;
  term2 ← np_mul x s;
  (* term3 = np.sqrt(np.abs(self.Omega_k0)) * x *)
  sk ← np_sqrt (np_abs (Omega_k0 self));
  term3 ← np_mul sk x;
  (* term1 * (term2 - 1.0 / np.sqrt(np.abs(self.Omega_k0)) * np.arcsin(term3)) *)
  sk' ← np_sqrt (np_abs (Omega_k0 self));
  inv ← np_div (Scalar 1) sk';
  a ← np_arcsin term3;
  p ← np_mul inv a;
  diff ← np_sub term2 p;
  np_mul term1 diff.

(** [self.Omega_k0 == 0] and [self.Omega_k0 > 0]; [Omega_k0] is a 0-d
    array. *)
Definition nd_eq0 (a : NDFloating) : bool :=
  match a with
  | Scalar x => if Req_dec_T x 0 then true else false
  | Array _ => false
  end.

Definition nd_gt0 (a : NDFloating) : bool :=
  match a with
  | Scalar x => if Rlt_dec 0 x then true else false
  | Array _ => false
  end.

Definition comoving_volume (self : StandardCosmologyWrapper) (z : InputT) : M NDFloating :=
  if nd_eq0 (Omega_k0 self) then _comoving_volume_flat self z
  else if nd_gt0 (Omega_k0 self) then _comoving_volume_positive self z
  else _comoving_volume_negative self z.

Definition differential_comoving_volume (self : StandardCosmologyWrapper) (z : InputT) : M NDFloating :=
  (* (self.comoving_transverse_distance(z) / self.hubble_distance) ** 2
     / self.h_over_h0(z), left to right *)
  d ← comoving_transverse_distance self z;
  dh ← hubble_distance self;
  x ← np_div d dh;
  e ← h_over_h0 self z;
  np_div (np_pow x 2) e.

(** *** Angular diameter and luminosity distance *)

Definition angular_diameter_distance (self : StandardCosmologyWrapper) (z : InputT) : M NDFloating :=
  f ← getitem (_cosmo_fn self) "angular_distance"; f z.

Definition luminosity_distance (self : StandardCosmologyWrapper) (z : InputT) : M NDFloating :=
  f ← getitem (_cosmo_fn self) "luminosity_distance"; f z.

End Methods.

(** * Vocabulary of the properties *)

(** ** Outcomes and shapes *)

(** The unsupported-operation outcome: [NotImplementedError], and so no
    value. *)
Definition unsupported {A} (m : M A) : Prop :=
  raises m NotImplementedError /\ forall v, ~ returns m v.

(** A query answers a sequence [z0, ..., zn] elementwise: the output has the
    length of the input and its element [i] is the answer to [zi] alone. *)
Definition elementwise (q : InputT -> M NDFloating) : Prop :=
  forall (z0 : R) (rest : list R),
    exists out : list R,
      returns (q (Array (z0 :: rest))) (Array out)
      /\ length out = length (z0 :: rest)
      /\ forall (i : nat) (zi : R),
           (z0 :: rest) !! i = Some zi ->
           exists hi, out !! i = Some hi /\ returns (q (Scalar zi)) (Scalar hi).

(** Element [i] of the output depends on element [i] of the input only: two
    sequences that agree at [i] give outputs that agree at [i]. *)
Definition independent (q : InputT -> M NDFloating) : Prop :=
  forall (z0 z0' : R) (rest rest' out out' : list R) (i : nat),
    returns (q (Array (z0 :: rest))) (Array out) ->
    returns (q (Array (z0' :: rest'))) (Array out') ->
    (z0 :: rest) !! i = (z0' :: rest') !! i ->
    out !! i = out' !! i.

(** [P] holds of every element of the array. *)
Definition nd_Forall (P : R -> Prop) (a : NDFloating) : Prop :=
  match a with
  | Scalar x => P x
  | Array xs => Forall P xs
  end.

(** ** Models to run the methods on *)

(** A solver with Hubble rate [h * (1 + z)], curvature [k] and CMB
    temperature [t]. *)
Definition fixture (h k t : R) : Classy.t := {|
  Classy.Om_m := fun z => 0.3;
  Classy.Hubble := fun z => h * (1 + z);
  Classy.angular_distance := fun z => z / (1 + z);
  Classy.luminosity_distance := fun z => z * (1 + z);
  Classy.Omega_Lambda := 0.7;
  Classy.Omega_m := 0.3;
  Classy.Omega0_k := k;
  Classy.Omega_r := 0;
  Classy.Omega_b := 0.05;
  Classy.Omega0_cdm := 0.25;
  Classy.Omega_g := 0;
  Classy.Neff := 3.046;
  Classy.T_cmb := t
|}.

(** A class that implements the two primitives: the distance is [s * z]. *)
Definition implemented (s : R) : ComovingDistances := {|
  comoving_distance := fun _ z => ret (nd_map (fun v => s * v) z);
  comoving_transverse_distance := fun _ z => ret (nd_map (fun v => s * v) z)
|}.

(** ** The curved branches *)

(** What a curved branch evaluates once the transverse distance [d] is at
    hand, with [dh = 1/h] the Hubble distance and [x = d/dh]; [inverse] is the
    branch's inverse function. *)
Definition curved_events (h k : R) (d : NDFloating)
    (inverse : NDFloating -> event) : list event :=
  let dh := 1 / h in
  [EvDiv d (Scalar dh);
   EvDiv (Scalar (4 * PI * dh ^ 3)) (Scalar (2 * k));
   EvSqrt (nd_map (fun v => 1 + k * (v / dh) ^ 2) d);
   EvSqrt (Scalar (Rabs k));
   EvSqrt (Scalar (Rabs k));
   EvDiv (Scalar 1) (Scalar (sqrt (Rabs k)));
   inverse (nd_map (fun v => sqrt (Rabs k) * (v / dh)) d)].

(** The closed form of a curved branch at transverse distance [v]. *)
Definition curved_volume (h k : R) (inverse : R -> R) (v : R) : R :=
  let dh := 1 / h in
  let x := v / dh in
  4 * PI * dh ^ 3 / (2 * k)
  * (x * sqrt (1 + k * x ^ 2)
     - 1 / sqrt (Rabs k) * inverse (sqrt (Rabs k) * x)).

(** The arguments of the square roots a computation evaluated, in order. *)
Fixpoint sqrt_args (t : list event) : list NDFloating :=
  match t with
  | [] => []
  | EvSqrt a :: t' => a :: sqrt_args t'
  | _ :: t' => sqrt_args t'
  end.

(** The inverse-function calls a computation evaluated, in order. *)
Fixpoint inverse_calls (t : list event) : list event :=
  match t with
  | [] => []
  | EvArcsinh a :: t' => EvArcsinh a :: inverse_calls t'
  | EvArcsin a :: t' => EvArcsin a :: inverse_calls t'
  | _ :: t' => inverse_calls t'
  end.

(** ** Shapes and errors of the redshift-taking methods *)

(** [b] has the shape of [a]: both 0-d, or 1-d of one length. *)
Definition same_shape (a b : NDFloating) : Prop :=
  match a, b with
  | Scalar _, Scalar _ => True
  | Array xs, Array ys => length xs = length ys
  | _, _ => False
  end.

(** A method keeps the shape of its argument in whatever it returns. *)
Definition shape_preserving (q : InputT -> M NDFloating) : Prop :=
  forall z out, returns (q z) out -> same_shape z out.

(** A method refuses the array of size 0 with [ValueError], and raises
    nothing else anywhere else. *)
Definition raises_only_on_empty (q : InputT -> M NDFloating) : Prop :=
  raises (q (Array [])) ValueError
  /\ forall z e, raises (q z) e -> z = Array [] /\ e = ValueError.

(** A method returns on every argument. *)
Definition never_raises (q : InputT -> M NDFloating) : Prop :=
  forall z, exists out, returns (q z) out.

(** * Properties *)

(** ** Computations *)

Lemma bind_ret_l {A B} (a : A) (k : A -> M B) : (ret a ≫= k) = k a.
Proof.
  unfold mbind, M_bind, bind, ret. destruct (k a) as [t r]. reflexivity.
Qed.

Lemma bind_raise {A B} (e : Exception) (k : A -> M B) : (raise e ≫= k) = raise e.
Proof. reflexivity. Qed.

Lemma bind_tell {B} (ev : event) (k : unit -> M B) :
  (tell ev ≫= k) = (ev :: trace (k tt), outcome (k tt)).
Proof.
  unfold mbind, M_bind, bind, tell, trace, outcome.
  destruct (k tt) as [t r]. reflexivity.
Qed.

Lemma outcome_bind {A B} (m : M A) (k : A -> M B) :
  outcome (m ≫= k) =
  match outcome m with inl e => inl e | inr a => outcome (k a) end.
Proof.
  destruct m as [t [e | a]]; [reflexivity |].
  unfold mbind, M_bind, bind, outcome. simpl.
  destruct (k a) as [t' r]. reflexivity.
Qed.

Lemma trace_bind {A B} (m : M A) (k : A -> M B) :
  trace (m ≫= k) =
  trace m ++ match outcome m with inl _ => [] | inr a => trace (k a) end.
Proof.
  destruct m as [t [e | a]]; unfold mbind, M_bind, bind, trace, outcome; simpl.
  - symmetry. apply app_nil_r.
  - destruct (k a) as [t' r]. reflexivity.
Qed.

Lemma M_eta {A} (m : M A) : m = (trace m, outcome m).
Proof. destruct m. reflexivity. Qed.

(** ** Arrays *)

Lemma nd_map_nd_map (f g : R -> R) (a : NDFloating) :
  nd_map f (nd_map g a) = nd_map (fun v => f (g v)) a.
Proof.
  destruct a as [x | xs]; simpl; [reflexivity |].
  f_equal. apply map_map.
Qed.

Lemma nd_map_ext (f g : R -> R) (a : NDFloating) :
  (forall v, f v = g v) -> nd_map f a = nd_map g a.
Proof.
  intros Hfg. destruct a as [x | xs]; simpl; f_equal; [apply Hfg |].
  apply map_ext. exact Hfg.
Qed.

Lemma broadcast_scalar_l (f : R -> R -> R) (x : R) (b : NDFloating) :
  broadcast f (Scalar x) b = ret (nd_map (f x) b).
Proof. destruct b; reflexivity. Qed.

Lemma broadcast_scalar_r (f : R -> R -> R) (a : NDFloating) (y : R) :
  broadcast f a (Scalar y) = ret (nd_map (fun x => f x y) a).
Proof. destruct a; reflexivity. Qed.

Lemma zip_with_map_same (f : R -> R -> R) (g h : R -> R) (xs : list R) :
  zip_with f (map g xs) (map h xs) = map (fun v => f (g v) (h v)) xs.
Proof.
  induction xs as [| x xs IH]; simpl; [reflexivity |].
  rewrite IH. reflexivity.
Qed.

(** Two arrays computed elementwise from one array have its shape. *)
Lemma broadcast_same_shape (f : R -> R -> R) (g h : R -> R) (a : NDFloating) :
  broadcast f (nd_map g a) (nd_map h a) = ret (nd_map (fun v => f (g v) (h v)) a).
Proof.
  destruct a as [x | xs]; simpl; [reflexivity |].
  rewrite !length_map, Nat.eqb_refl, zip_with_map_same. reflexivity.
Qed.

(** ** The vectorization cache of a constructed model *)

Lemma cosmo_new (solver : Classy.t) : cosmo (new solver) = solver.
Proof. reflexivity. Qed.

Lemma cosmo_fn_Om_m (solver : Classy.t) :
  getitem (_cosmo_fn (new solver)) "Om_m" = ret (vectorize (Classy.Om_m solver)).
Proof. unfold getitem, new, __post_init__; simpl. rewrite lookup_insert_eq. reflexivity. Qed.

Lemma cosmo_fn_Hubble (solver : Classy.t) :
  getitem (_cosmo_fn (new solver)) "Hubble" = ret (vectorize (Classy.Hubble solver)).
Proof.
  unfold getitem, new, __post_init__; simpl.
  rewrite lookup_insert_ne by discriminate.
  rewrite lookup_insert_eq. reflexivity.
Qed.

Lemma cosmo_fn_angular_distance (solver : Classy.t) :
  getitem (_cosmo_fn (new solver)) "angular_distance"
  = ret (vectorize (Classy.angular_distance solver)).
Proof.
  unfold getitem, new, __post_init__; simpl.
  do 2 (rewrite lookup_insert_ne by discriminate).
  rewrite lookup_insert_eq. reflexivity.
Qed.

Lemma cosmo_fn_luminosity_distance (solver : Classy.t) :
  getitem (_cosmo_fn (new solver)) "luminosity_distance"
  = ret (vectorize (Classy.luminosity_distance solver)).
Proof.
  unfold getitem, new, __post_init__; simpl.
  do 3 (rewrite lookup_insert_ne by discriminate).
  rewrite lookup_insert_eq. reflexivity.
Qed.

(** The cache holds the four queries and nothing else. *)
Lemma cosmo_fn_keys (solver : Classy.t) :
  dom (_cosmo_fn (new solver))
  = ({["Om_m"; "Hubble"; "angular_distance"; "luminosity_distance"]} : gset string).
Proof.
  unfold new, __post_init__; simpl.
  rewrite !dom_insert_L, dom_empty_L. set_solver.
Qed.

(** ** Unsupported operations *)

Lemma raise_unsupported {A} : unsupported (@raise A NotImplementedError).
Proof. split; [reflexivity | intros v Hv; discriminate Hv]. Qed.

Lemma raises_unsupported {A} (m : M A) :
  raises m NotImplementedError -> unsupported m.
Proof.
  intros Hm. split; [exact Hm |].
  intros v Hv. unfold raises, returns in *. congruence.
Qed.

(** C3.  On every model and for every input, each operation the class leaves
    unimplemented (comoving_distance, comoving_transverse_distance, age,
    lookback_time, Omega_tot, Omega_k, Omega_b, Omega_nu, Omega_de, Omega_dm,
    Omega_gamma, Omega_nu0, m_nu) raises NotImplementedError and returns no
    value. *)
Theorem unsupported_operations (solver : Classy.t) (z : InputT) :
  let self := new solver in
  unsupported (comoving_distance self z)
  /\ unsupported (comoving_transverse_distance self z)
  /\ unsupported (age self z)
  /\ unsupported (lookback_time self z)
  /\ unsupported (Omega_tot self z)
  /\ unsupported (Omega_k self z)
  /\ unsupported (Omega_b self z)
  /\ unsupported (Omega_nu self z)
  /\ unsupported (Omega_de self z)
  /\ unsupported (Omega_dm self z)
  /\ unsupported (Omega_gamma self z)
  /\ unsupported (Omega_nu0 self)
  /\ unsupported (m_nu self).
Proof.
  intros self. repeat split; try reflexivity; intros v Hv; discriminate Hv.
Qed.

(** ** The Hubble function *)

Lemma H_scalar (c : R) (solver : Classy.t) (z : R) :
  H c (new solver) (Scalar z) = ret (Scalar (c * Classy.Hubble solver z)).
Proof.
  unfold H. rewrite cosmo_fn_Hubble, bind_ret_l. simpl vectorize.
  rewrite bind_ret_l. unfold np_mul. apply broadcast_scalar_l.
Qed.

Lemma H_array (c : R) (solver : Classy.t) (z0 : R) (rest : list R) :
  H c (new solver) (Array (z0 :: rest))
  = ret (Array (map (fun z => c * Classy.Hubble solver z) (z0 :: rest))).
Proof.
  unfold H. rewrite cosmo_fn_Hubble, bind_ret_l.
  change (vectorize (Classy.Hubble solver) (Array (z0 :: rest)))
    with (ret (Array (map (Classy.Hubble solver) (z0 :: rest)))).
  rewrite bind_ret_l. unfold np_mul. rewrite broadcast_scalar_l.
  simpl nd_map. rewrite map_map. reflexivity.
Qed.

(** An array of size 0 is refused by the vectorized query. *)
Lemma H_empty (c : R) (solver : Classy.t) :
  H c (new solver) (Array []) = raise ValueError.
Proof. unfold H. rewrite cosmo_fn_Hubble, bind_ret_l. reflexivity. Qed.

(** C4.  On every model the Hubble function at redshift zero returns the
    value of the H0 property: H(0) == H0. *)
Theorem H_at_zero_is_H0 (c : R) (solver : Classy.t) :
  H c (new solver) (Scalar 0) = ret (H0 c (new solver)).
Proof. rewrite H_scalar. reflexivity. Qed.

(** ** Vectorized queries *)

Lemma returns_inj {A} (m : M A) (a b : A) : returns m a -> returns m b -> a = b.
Proof. unfold returns. congruence. Qed.

Lemma elementwise_independent (q : InputT -> M NDFloating) :
  elementwise q -> independent q.
Proof.
  intros Hq z0 z0' rest rest' out out' i Hout Hout' Hi.
  destruct (Hq z0 rest) as (o & Ho & Hlen & Hel).
  destruct (Hq z0' rest') as (o' & Ho' & Hlen' & Hel').
  assert (o = out) by (pose proof (returns_inj _ _ _ Ho Hout); congruence).
  assert (o' = out') by (pose proof (returns_inj _ _ _ Ho' Hout'); congruence).
  subst o o'.
  destruct ((z0 :: rest) !! i) as [zi |] eqn:Ezi.
  - destruct (Hel i zi Ezi) as (hi & Hhi & Hs).
    destruct (Hel' i zi (eq_sym Hi)) as (hi' & Hhi' & Hs').
    pose proof (returns_inj _ _ _ Hs Hs') as E. injection E as ->.
    congruence.
  - apply lookup_ge_None in Ezi. symmetry in Hi. apply lookup_ge_None in Hi.
    rewrite (proj2 (lookup_ge_None out i)) by lia.
    rewrite (proj2 (lookup_ge_None out' i)) by lia.
    reflexivity.
Qed.

Lemma lookup_map (f : R -> R) (l : list R) (i : nat) :
  map f l !! i = option_map f (l !! i).
Proof.
  revert i. induction l as [| x l IH]; intros [| i]; simpl; auto.
Qed.

(** What the cache stores under each name answers elementwise. *)
Lemma vectorize_elementwise (f : R -> R) : elementwise (vectorize f).
Proof.
  intros z0 rest. exists (map f (z0 :: rest)).
  split; [reflexivity |]. split; [apply length_map |].
  intros i zi Hi. exists (f zi). split; [| reflexivity].
  rewrite lookup_map, Hi. reflexivity.
Qed.

Lemma H_elementwise (c : R) (solver : Classy.t) : elementwise (H c (new solver)).
Proof.
  intros z0 rest. exists (map (fun z => c * Classy.Hubble solver z) (z0 :: rest)).
  split; [unfold returns; rewrite H_array; reflexivity |].
  split; [apply length_map |].
  intros i zi Hi. exists (c * Classy.Hubble solver zi).
  split; [| unfold returns; rewrite H_scalar; reflexivity].
  rewrite lookup_map, Hi. reflexivity.
Qed.

Lemma cached_query_elementwise (f : R -> R) (q : InputT -> M NDFloating) :
  (forall z, q z = vectorize f z) -> elementwise q.
Proof.
  intros Hq z0 rest.
  destruct (vectorize_elementwise f z0 rest) as (out & Ho & Hlen & Hel).
  exists out. rewrite Hq. split; [exact Ho |]. split; [exact Hlen |].
  intros i zi Hi. rewrite Hq. apply Hel. exact Hi.
Qed.

Lemma Omega_m_vectorize (solver : Classy.t) (z : InputT) :
  Omega_m (new solver) z = vectorize (Classy.Om_m solver) z.
Proof. unfold Omega_m. rewrite cosmo_fn_Om_m, bind_ret_l. reflexivity. Qed.

Lemma angular_diameter_distance_vectorize (solver : Classy.t) (z : InputT) :
  angular_diameter_distance (new solver) z
  = vectorize (Classy.angular_distance solver) z.
Proof.
  unfold angular_diameter_distance.
  rewrite cosmo_fn_angular_distance, bind_ret_l. reflexivity.
Qed.

Lemma luminosity_distance_vectorize (solver : Classy.t) (z : InputT) :
  luminosity_distance (new solver) z
  = vectorize (Classy.luminosity_distance solver) z.
Proof.
  unfold luminosity_distance.
  rewrite cosmo_fn_luminosity_distance, bind_ret_l. reflexivity.
Qed.

(** C5.  On every model and for every redshift sequence [z0, ..., zn], each
    vectorized query (H, and likewise Omega_m, angular_diameter_distance and
    luminosity_distance) returns a sequence of the same length whose element i
    is the query's answer to zi, H([z0,...,zn])[i] == H(zi); and element i of
    the output depends on element i of the input only. *)
Theorem vectorized_consistency (c : R) (solver : Classy.t) :
  let self := new solver in
  (elementwise (H c self) /\ independent (H c self))
  /\ (elementwise (Omega_m self) /\ independent (Omega_m self))
  /\ (elementwise (angular_diameter_distance self)
      /\ independent (angular_diameter_distance self))
  /\ (elementwise (luminosity_distance self)
      /\ independent (luminosity_distance self)).
Proof.
  intros self.
  assert (HH : elementwise (H c self)) by apply H_elementwise.
  assert (Hm : elementwise (Omega_m self))
    by exact (cached_query_elementwise _ _ (Omega_m_vectorize solver)).
  assert (Ha : elementwise (angular_diameter_distance self))
    by exact (cached_query_elementwise _ _ (angular_diameter_distance_vectorize solver)).
  assert (Hl : elementwise (luminosity_distance self))
    by exact (cached_query_elementwise _ _ (luminosity_distance_vectorize solver)).
  repeat split; auto using elementwise_independent.
Qed.

(** ** Hubble distance and H0 *)

Lemma np_div_scalar_r (a : NDFloating) (y : R) :
  np_div a (Scalar y) = ([EvDiv a (Scalar y)], inr (nd_map (fun x => x / y) a)).
Proof. unfold np_div. rewrite bind_tell, broadcast_scalar_r. reflexivity. Qed.

Lemma np_div_scalar_l (x : R) (b : NDFloating) :
  np_div (Scalar x) b = ([EvDiv (Scalar x) b], inr (nd_map (Rdiv x) b)).
Proof. unfold np_div. rewrite bind_tell, broadcast_scalar_l. reflexivity. Qed.

Lemma py_div_nonzero (x y : R) :
  y <> 0 -> py_div x y = ([EvDiv (Scalar x) (Scalar y)], inr (Scalar (x / y))).
Proof.
  intros Hy. unfold py_div. rewrite bind_tell.
  destruct (Req_dec_T y 0); [contradiction | reflexivity].
Qed.

Lemma py_div_zero (x y : R) :
  y = 0 -> py_div x y = ([EvDiv (Scalar x) (Scalar y)], inl ZeroDivisionError).
Proof.
  intros Hy. unfold py_div. rewrite bind_tell.
  destruct (Req_dec_T y 0); [reflexivity | contradiction].
Qed.

Lemma hubble_distance_eq (self : StandardCosmologyWrapper) :
  Classy.Hubble (cosmo self) 0 <> 0 ->
  hubble_distance self
  = ([EvDiv (Scalar 1) (Scalar (Classy.Hubble (cosmo self) 0))],
     inr (Scalar (1 / Classy.Hubble (cosmo self) 0))).
Proof. unfold hubble_distance. apply py_div_nonzero. Qed.

(** A solver that reports the rate 0 at z=0 makes the Hubble distance raise. *)
Lemma hubble_distance_zero (self : StandardCosmologyWrapper) :
  Classy.Hubble (cosmo self) 0 = 0 ->
  hubble_distance self
  = ([EvDiv (Scalar 1) (Scalar (Classy.Hubble (cosmo self) 0))],
     inl ZeroDivisionError).
Proof. unfold hubble_distance. apply py_div_zero. Qed.



(** ** Scale factor *)

Lemma nd_Forall_nd_map (P : R -> Prop) (f : R -> R) (a : NDFloating) :
  nd_Forall (fun v => P (f v)) a -> nd_Forall P (nd_map f a).
Proof.
  destruct a as [x | xs]; simpl; [auto |].
  intros Hxs. apply Forall_map. exact Hxs.
Qed.

Lemma nd_Forall_impl (P Q : R -> Prop) (a : NDFloating) :
  (forall v, P v -> Q v) -> nd_Forall P a -> nd_Forall Q a.
Proof.
  intros HPQ. destruct a as [x | xs]; simpl; [apply HPQ |].
  intros Hxs. induction Hxs; constructor; auto.
Qed.

Lemma scale_factor_eq (self : StandardCosmologyWrapper) (z : InputT) :
  scale_factor self z
  = ([EvDiv (Scalar 1) (nd_map (fun v => v + 1) z)],
     inr (nd_map (fun v => 1 / (v + 1)) z)).
Proof.
  unfold scale_factor, np_add, scale_factor0.
  rewrite broadcast_scalar_r, bind_ret_l, np_div_scalar_l, nd_map_nd_map.
  reflexivity.
Qed.

(** C7.  On every model and for every redshift z >= 0 (a scalar, or an array
    of such), scale_factor(z) returns 1/(1+z), dividing by 1+z > 0 and by
    nothing else; scale_factor(0) returns 1, and scale_factor0 is 1. *)
Theorem scale_factor_spec (solver : Classy.t) (z : InputT) :
  let self := new solver in
  nd_Forall (fun v => 0 <= v) z ->
  returns (scale_factor self z) (nd_map (fun v => 1 / (1 + v)) z)
  /\ (exists den, trace (scale_factor self z) = [EvDiv (Scalar 1) den]
                  /\ nd_Forall (fun d => 0 < d) den)
  /\ returns (scale_factor self (Scalar 0)) (Scalar 1)
  /\ scale_factor0 self = Scalar 1.
Proof.
  intros self Hz. rewrite !scale_factor_eq. unfold returns. simpl.
  split.
  { f_equal. apply nd_map_ext. intros v. rewrite (Rplus_comm v 1). reflexivity. }
  split.
  { eexists. split; [reflexivity |].
    apply nd_Forall_nd_map. revert Hz. apply nd_Forall_impl. intros v Hv. lra. }
  split; [| reflexivity].
  do 2 f_equal. lra.
Qed.

Lemma scale_factor_spec_witness :
  returns (scale_factor (new (fixture 2 0 2.725)) (Array [0; 1; 3]))
          (Array [1 / (1 + 0); 1 / (1 + 1); 1 / (1 + 3)])
  /\ (exists den,
        trace (scale_factor (new (fixture 2 0 2.725)) (Array [0; 1; 3]))
        = [EvDiv (Scalar 1) den]
        /\ nd_Forall (fun d => 0 < d) den)
  /\ returns (scale_factor (new (fixture 2 0 2.725)) (Scalar 0)) (Scalar 1)
  /\ scale_factor0 (new (fixture 2 0 2.725)) = Scalar 1.
Proof.
  apply (scale_factor_spec (fixture 2 0 2.725) (Array [0; 1; 3])).
  simpl. repeat constructor; lra.
Defined.

(** ** CMB temperature *)

Lemma Tcmb_eq (self : StandardCosmologyWrapper) (z : InputT) :
  Tcmb self z
  = ret (nd_map (fun v => Classy.T_cmb (cosmo self) * (v + 1)) z).
Proof.
  unfold Tcmb, np_add, np_mul, Tcmb0.
  rewrite broadcast_scalar_r, bind_ret_l, broadcast_scalar_l, nd_map_nd_map.
  reflexivity.
Qed.

(** C8.  On every model Tcmb0 is the solver's T_cmb, and for every redshift z
    Tcmb(z) returns Tcmb0*(1+z); with Tcmb0 = 2.725, Tcmb(1) returns 5.45. *)
Theorem Tcmb_spec (solver : Classy.t) (z : InputT) :
  let self := new solver in
  Tcmb0 self = Scalar (Classy.T_cmb solver)
  /\ (forall t0, Tcmb0 self = Scalar t0 ->
        returns (Tcmb self z) (nd_map (fun v => t0 * (1 + v)) z))
  /\ (Tcmb0 self = Scalar 2.725 -> returns (Tcmb self (Scalar 1)) (Scalar 5.45)).
Proof.
  intros self. split; [reflexivity |].
  split.
  - intros t0 Ht0. injection Ht0 as <-.
    unfold returns. rewrite Tcmb_eq. simpl. f_equal.
    apply nd_map_ext. intros v. rewrite (Rplus_comm v 1). reflexivity.
  - intros Ht0. injection Ht0 as Ht0.
    unfold returns. rewrite Tcmb_eq. simpl. rewrite Ht0.
    do 2 f_equal. lra.
Qed.

Lemma Tcmb_spec_witness :
  returns (Tcmb (new (fixture 2 0 2.725)) (Scalar 1)) (Scalar 5.45).
Proof.
  apply (Tcmb_spec (fixture 2 0 2.725) (Scalar 1)). reflexivity.
Defined.

(** ** Critical density *)

Lemma critical_density0_eq (c G : R) (self : StandardCosmologyWrapper) :
  critical_density0 c G self
  = ([EvDiv (Scalar (3e6 * (c * Classy.Hubble (cosmo self) 0) ^ 2))
            (Scalar (8 * PI * G))],
     inr (Scalar (3e6 * (c * Classy.Hubble (cosmo self) 0) ^ 2 / (8 * PI * G)))).
Proof.
  unfold critical_density0, np_mul, H0, np_pow.
  rewrite broadcast_scalar_l, bind_ret_l, np_div_scalar_r. reflexivity.
Qed.

(** C9.  On every model critical_density0 returns 3e6 * H0**2 / (8*pi*G),
    whatever the values of H0 and G; and wherever H(z) returns,
    critical_density(z) returns the same formula on H(z) in place of H0. *)
Theorem critical_density_spec (c G : R) (solver : Classy.t) (z : InputT) :
  let self := new solver in
  (forall h0, H0 c self = Scalar h0 ->
     returns (critical_density0 c G self)
             (Scalar (3e6 * h0 ^ 2 / (8 * PI * G))))
  /\ (forall hz, returns (H c self z) hz ->
        returns (critical_density c G self z)
                (nd_map (fun h => 3e6 * h ^ 2 / (8 * PI * G)) hz)).
Proof.
  intros self. split.
  - intros h0 Hh0. injection Hh0 as <-.
    unfold returns. rewrite critical_density0_eq. reflexivity.
  - intros hz Hhz. unfold returns in *.
    unfold critical_density. rewrite outcome_bind, Hhz.
    unfold np_mul, np_pow. rewrite broadcast_scalar_l, bind_ret_l.
    rewrite np_div_scalar_r. simpl outcome. rewrite !nd_map_nd_map.
    reflexivity.
Qed.

Lemma critical_density_spec_witness :
  returns (critical_density0 299792.458 4.3e-9 (new (fixture 2 0 2.725)))
          (Scalar (3e6 * (299792.458 * (2 * (1 + 0))) ^ 2 / (8 * PI * 4.3e-9)))
  /\ returns (critical_density 299792.458 4.3e-9 (new (fixture 2 0 2.725))
                               (Array [0; 1]))
             (Array [3e6 * (299792.458 * (2 * (1 + 0))) ^ 2 / (8 * PI * 4.3e-9);
                     3e6 * (299792.458 * (2 * (1 + 1))) ^ 2 / (8 * PI * 4.3e-9)]).
Proof.
  pose proof (critical_density_spec 299792.458 4.3e-9 (fixture 2 0 2.725)
                (Array [0; 1])) as [H0ok Hzok].
  split.
  - apply H0ok. reflexivity.
  - apply (Hzok (Array [299792.458 * (2 * (1 + 0)); 299792.458 * (2 * (1 + 1))])).
    unfold returns. rewrite H_array. reflexivity.
Defined.

(** ** Comoving volume *)

Lemma bind_val {A B} (t : list event) (a : A) (k : A -> M B) :
  ((t, inr a) ≫= k) = (t ++ trace (k a), outcome (k a)).
Proof.
  unfold mbind, M_bind, bind, trace, outcome.
  destruct (k a) as [t' r]. reflexivity.
Qed.

Lemma bind_exn {A B} (t : list event) (e : Exception) (k : A -> M B) :
  ((t, inl e) ≫= k) = (t, inl e).
Proof. reflexivity. Qed.

Lemma np_mul_scalar_l (x : R) (b : NDFloating) :
  np_mul (Scalar x) b = ret (nd_map (Rmult x) b).
Proof. apply broadcast_scalar_l. Qed.

Lemma np_mul_scalar_r (a : NDFloating) (y : R) :
  np_mul a (Scalar y) = ret (nd_map (fun x => x * y) a).
Proof. apply broadcast_scalar_r. Qed.

Lemma np_add_scalar_l (x : R) (b : NDFloating) :
  np_add (Scalar x) b = ret (nd_map (Rplus x) b).
Proof. apply broadcast_scalar_l. Qed.

Lemma nd_eq0_true (x : R) : x = 0 -> nd_eq0 (Scalar x) = true.
Proof. intros Hx. simpl. destruct (Req_dec_T x 0); [reflexivity | contradiction]. Qed.

Lemma nd_eq0_false (x : R) : x <> 0 -> nd_eq0 (Scalar x) = false.
Proof. intros Hx. simpl. destruct (Req_dec_T x 0); [contradiction | reflexivity]. Qed.

Lemma nd_gt0_true (x : R) : 0 < x -> nd_gt0 (Scalar x) = true.
Proof. intros Hx. simpl. destruct (Rlt_dec 0 x); [reflexivity | contradiction]. Qed.

Lemma nd_gt0_false (x : R) : ~ 0 < x -> nd_gt0 (Scalar x) = false.
Proof. intros Hx. simpl. destruct (Rlt_dec 0 x); [contradiction | reflexivity]. Qed.

(** The flat branch: one division, 4/3, then the comoving distance. *)
Lemma _comoving_volume_flat_eq {cls : ComovingDistances}
    (self : StandardCosmologyWrapper) (z : InputT) :
  _comoving_volume_flat self z
  = (EvDiv (Scalar 4) (Scalar 3) :: trace (comoving_distance self z),
     match outcome (comoving_distance self z) with
     | inl e => inl e
     | inr d => inr (nd_map (fun v => 4 / 3 * PI * v ^ 3) d)
     end).
Proof.
  unfold _comoving_volume_flat.
  rewrite py_div_nonzero by lra. rewrite bind_val.
  rewrite np_mul_scalar_r, bind_ret_l. cbn [nd_map].
  destruct (comoving_distance self z) as [td [e | d]].
  - reflexivity.
  - rewrite bind_val, np_mul_scalar_l. unfold np_pow.
    rewrite nd_map_nd_map. cbn [trace outcome ret fst snd app].
    rewrite app_nil_r. reflexivity.
Qed.

Lemma comoving_volume_flat {cls : ComovingDistances} (solver : Classy.t) (z : InputT) :
  Classy.Omega0_k solver = 0 ->
  comoving_volume (new solver) z = _comoving_volume_flat (new solver) z.
Proof.
  intros Hk. unfold comoving_volume, Omega_k0. rewrite cosmo_new.
  rewrite nd_eq0_true by exact Hk. reflexivity.
Qed.

Lemma comoving_volume_positive {cls : ComovingDistances} (solver : Classy.t) (z : InputT) :
  0 < Classy.Omega0_k solver ->
  comoving_volume (new solver) z = _comoving_volume_positive (new solver) z.
Proof.
  intros Hk. unfold comoving_volume, Omega_k0. rewrite cosmo_new.
  rewrite nd_eq0_false by lra. rewrite nd_gt0_true by exact Hk. reflexivity.
Qed.

Lemma comoving_volume_negative {cls : ComovingDistances} (solver : Classy.t) (z : InputT) :
  Classy.Omega0_k solver < 0 ->
  comoving_volume (new solver) z = _comoving_volume_negative (new solver) z.
Proof.
  intros Hk. unfold comoving_volume, Omega_k0. rewrite cosmo_new.
  rewrite nd_eq0_false by lra. rewrite nd_gt0_false by lra. reflexivity.
Qed.

(** C2.  On every model with Omega_k0 = 0 and for every redshift z,
    comoving_volume(z) is (4/3)*pi*comoving_distance(z)**3: it returns that
    value where comoving_distance(z) returns, and raises what
    comoving_distance(z) raises. *)
Theorem comoving_volume_flat_spec {cls : ComovingDistances}
    (solver : Classy.t) (z : InputT) :
  let self := new solver in
  Classy.Omega0_k solver = 0 ->
  (forall d, returns (comoving_distance self z) d ->
     returns (comoving_volume self z) (nd_map (fun v => 4 / 3 * PI * v ^ 3) d))
  /\ (forall e, raises (comoving_distance self z) e ->
        raises (comoving_volume self z) e).
Proof.
  intros self Hk. unfold returns, raises.
  rewrite (comoving_volume_flat solver z Hk), _comoving_volume_flat_eq.
  simpl outcome. fold self.
  split; intros v Hv; rewrite Hv; reflexivity.
Qed.

Lemma comoving_volume_flat_spec_witness :
  returns (@comoving_volume (implemented 3000) (new (fixture 2 0 2.725)) (Scalar 1))
          (Scalar (4 / 3 * PI * (3000 * 1) ^ 3))
  /\ raises (@comoving_volume this_revision (new (fixture 2 0 2.725)) (Scalar 1))
            NotImplementedError.
Proof.
  split.
  - apply (proj1 (@comoving_volume_flat_spec (implemented 3000) (fixture 2 0 2.725)
                    (Scalar 1) eq_refl) (Scalar (3000 * 1))).
    reflexivity.
  - apply (proj2 (@comoving_volume_flat_spec this_revision (fixture 2 0 2.725)
                    (Scalar 1) eq_refl)).
    reflexivity.
Defined.

(** ** The curved branches *)

Lemma np_sqrt_eq (a : NDFloating) :
  np_sqrt a = ([EvSqrt a], inr (nd_map sqrt a)).
Proof. unfold np_sqrt. rewrite bind_tell. reflexivity. Qed.

Lemma np_arcsinh_eq (a : NDFloating) :
  np_arcsinh a = ([EvArcsinh a], inr (nd_map arcsinh a)).
Proof. unfold np_arcsinh. rewrite bind_tell. reflexivity. Qed.

Lemma np_arcsin_eq (a : NDFloating) :
  np_arcsin a = ([EvArcsin a], inr (nd_map asin a)).
Proof. unfold np_arcsin. rewrite bind_tell. reflexivity. Qed.

Lemma np_mul_same_shape (g h : R -> R) (a : NDFloating) :
  np_mul (nd_map g a) (nd_map h a) = ret (nd_map (fun v => g v * h v) a).
Proof. apply broadcast_same_shape. Qed.

Lemma np_sub_same_shape (g h : R -> R) (a : NDFloating) :
  np_sub (nd_map g a) (nd_map h a) = ret (nd_map (fun v => g v - h v) a).
Proof. apply broadcast_same_shape. Qed.

Ltac run_step :=
  first
    [ rewrite bind_val
    | rewrite bind_ret_l
    | rewrite np_div_scalar_r
    | rewrite np_mul_scalar_l
    | rewrite np_add_scalar_l
    | rewrite np_sqrt_eq
    | rewrite np_arcsinh_eq
    | rewrite np_arcsin_eq
    | rewrite np_mul_same_shape
    | rewrite np_sub_same_shape ];
  cbn [trace outcome fst snd nd_map];
  rewrite ?nd_map_nd_map.

Lemma _comoving_volume_positive_eq {cls : ComovingDistances}
    (self : StandardCosmologyWrapper) (z : InputT)
    (td : list event) (d : NDFloating) :
  comoving_transverse_distance self z = (td, inr d) ->
  let h := Classy.Hubble (cosmo self) 0 in
  let k := Classy.Omega0_k (cosmo self) in
  h <> 0 ->
  _comoving_volume_positive self z
  = (EvDiv (Scalar 1) (Scalar h) :: td ++ curved_events h k d EvArcsinh,
     inr (nd_map (curved_volume h k arcsinh) d)).
Proof.
  intros Hd h k Hh. unfold _comoving_volume_positive.
  rewrite hubble_distance_eq by exact Hh. rewrite Hd.
  unfold Omega_k0, np_pow, np_abs.
  fold h k.
  repeat run_step. reflexivity.
Qed.

Lemma _comoving_volume_negative_eq {cls : ComovingDistances}
    (self : StandardCosmologyWrapper) (z : InputT)
    (td : list event) (d : NDFloating) :
  comoving_transverse_distance self z = (td, inr d) ->
  let h := Classy.Hubble (cosmo self) 0 in
  let k := Classy.Omega0_k (cosmo self) in
  h <> 0 ->
  _comoving_volume_negative self z
  = (EvDiv (Scalar 1) (Scalar h) :: td ++ curved_events h k d EvArcsin,
     inr (nd_map (curved_volume h k asin) d)).
Proof.
  intros Hd h k Hh. unfold _comoving_volume_negative.
  rewrite hubble_distance_eq by exact Hh. rewrite Hd.
  unfold Omega_k0, np_pow, np_abs.
  fold h k.
  repeat run_step. reflexivity.
Qed.

(** A curved branch stops at the transverse distance when that raises. *)
Lemma _comoving_volume_curved_raises {cls : ComovingDistances}
    (self : StandardCosmologyWrapper) (z : InputT)
    (td : list event) (e : Exception) :
  comoving_transverse_distance self z = (td, inl e) ->
  let h := Classy.Hubble (cosmo self) 0 in
  h <> 0 ->
  _comoving_volume_positive self z = (EvDiv (Scalar 1) (Scalar h) :: td, inl e)
  /\ _comoving_volume_negative self z = (EvDiv (Scalar 1) (Scalar h) :: td, inl e).
Proof.
  intros Hd h Hh. unfold _comoving_volume_positive, _comoving_volume_negative.
  rewrite hubble_distance_eq by exact Hh. rewrite Hd, !bind_val, !bind_exn.
  cbn [trace outcome fst snd app]. split; reflexivity.
Qed.

(** A curved branch stops at the Hubble distance when the solver's rate at
    z=0 is 0: the primitive is not reached. *)
Lemma _comoving_volume_curved_zero {cls : ComovingDistances}
    (self : StandardCosmologyWrapper) (z : InputT) :
  let h := Classy.Hubble (cosmo self) 0 in
  h = 0 ->
  _comoving_volume_positive self z
  = ([EvDiv (Scalar 1) (Scalar h)], inl ZeroDivisionError)
  /\ _comoving_volume_negative self z
     = ([EvDiv (Scalar 1) (Scalar h)], inl ZeroDivisionError).
Proof.
  intros h Hh. unfold _comoving_volume_positive, _comoving_volume_negative.
  rewrite hubble_distance_zero by exact Hh. split; reflexivity.
Qed.

(** The curved branches of this revision: the primitive's
    NotImplementedError after the Hubble distance, or the Hubble distance's
    own ZeroDivisionError. *)
Lemma comoving_volume_curved_this_revision (solver : Classy.t) (z : InputT) :
  Classy.Omega0_k solver <> 0 ->
  let h := Classy.Hubble solver 0 in
  (h <> 0 ->
     comoving_volume (new solver) z
     = ([EvDiv (Scalar 1) (Scalar h)], inl NotImplementedError))
  /\ (h = 0 ->
        comoving_volume (new solver) z
        = ([EvDiv (Scalar 1) (Scalar h)], inl ZeroDivisionError)).
Proof.
  intros Hk h. split; intros Hh.
  - destruct (@_comoving_volume_curved_raises this_revision (new solver) z []
                NotImplementedError eq_refl Hh) as [Hp Hn].
    destruct (Rtotal_order (Classy.Omega0_k solver) 0) as [Hlt | [Heq | Hgt]].
    + rewrite (comoving_volume_negative solver z Hlt). exact Hn.
    + contradiction.
    + rewrite (comoving_volume_positive solver z Hgt). exact Hp.
  - destruct (@_comoving_volume_curved_zero this_revision (new solver) z Hh)
      as [Hp Hn].
    destruct (Rtotal_order (Classy.Omega0_k solver) 0) as [Hlt | [Heq | Hgt]].
    + rewrite (comoving_volume_negative solver z Hlt). exact Hn.
    + contradiction.
    + rewrite (comoving_volume_positive solver z Hgt). exact Hp.
Qed.

Lemma comoving_volume_flat_this_revision (solver : Classy.t) (z : InputT) :
  Classy.Omega0_k solver = 0 ->
  comoving_volume (new solver) z
  = ([EvDiv (Scalar 4) (Scalar 3)], inl NotImplementedError).
Proof.
  intros Hk. rewrite (comoving_volume_flat solver z Hk), _comoving_volume_flat_eq.
  reflexivity.
Qed.

(** What this revision evaluates before it raises: 4/3 in the flat branch,
    the Hubble distance in a curved one; never a square root. *)
Lemma comoving_volume_trace (solver : Classy.t) (z : InputT) :
  let t := trace (comoving_volume (new solver) z) in
  (t = [EvDiv (Scalar 4) (Scalar 3)]
   \/ t = [EvDiv (Scalar 1) (Scalar (Classy.Hubble solver 0))])
  /\ sqrt_args t = [].
Proof.
  destruct (Req_dec_T (Classy.Omega0_k solver) 0) as [Hk | Hk].
  - rewrite (comoving_volume_flat_this_revision solver z Hk).
    split; [left |]; reflexivity.
  - destruct (comoving_volume_curved_this_revision solver z Hk) as [Hnz Hz].
    destruct (Req_dec_T (Classy.Hubble solver 0) 0) as [Hh | Hh].
    + rewrite (Hz Hh). split; [right |]; reflexivity.
    + rewrite (Hnz Hh). split; [right |]; reflexivity.
Qed.

(** C10, as the code has it.  In this revision
    differential_comoving_volume(z) raises NotImplementedError on every model
    and for every input, and comoving_volume(z) never returns a value.
    comoving_volume(z) raises NotImplementedError when Omega_k0 = 0 or the
    solver's Hubble rate at z=0 is not 0, whichever branch is taken, the
    branch reaching comoving_distance or comoving_transverse_distance before
    it has a result.  With Omega_k0 other than 0 and a rate of 0 it raises
    ZeroDivisionError: the curved branches evaluate the Hubble distance
    first. *)
Theorem volumes_unsupported (solver : Classy.t) (z : InputT) :
  let self := new solver in
  let k := Classy.Omega0_k solver in
  let h := Classy.Hubble solver 0 in
  unsupported (differential_comoving_volume self z)
  /\ (forall v, ~ returns (comoving_volume self z) v)
  /\ (k = 0 \/ h <> 0 -> unsupported (comoving_volume self z))
  /\ (k <> 0 -> h = 0 -> raises (comoving_volume self z) ZeroDivisionError).
Proof.
  intros self k h. subst self.
  assert (Hflat : k = 0 -> raises (comoving_volume (new solver) z) NotImplementedError).
  { intros Hk. unfold raises.
    rewrite (comoving_volume_flat_this_revision solver z Hk). reflexivity. }
  assert (Hnz : k <> 0 -> h <> 0 ->
                raises (comoving_volume (new solver) z) NotImplementedError).
  { intros Hk Hh. unfold raises.
    rewrite (proj1 (comoving_volume_curved_this_revision solver z Hk) Hh).
    reflexivity. }
  assert (Hz : k <> 0 -> h = 0 ->
               raises (comoving_volume (new solver) z) ZeroDivisionError).
  { intros Hk Hh. unfold raises.
    rewrite (proj2 (comoving_volume_curved_this_revision solver z Hk) Hh).
    reflexivity. }
  split; [apply raises_unsupported; reflexivity |].
  split; [| split; [| exact Hz]].
  - intros v Hv. unfold returns, raises in *.
    destruct (Req_dec_T k 0) as [Hk | Hk].
    + rewrite (Hflat Hk) in Hv. discriminate Hv.
    + destruct (Req_dec_T h 0) as [Hh | Hh].
      * rewrite (Hz Hk Hh) in Hv. discriminate Hv.
      * rewrite (Hnz Hk Hh) in Hv. discriminate Hv.
  - intros Hor. apply raises_unsupported.
    destruct (Req_dec_T k 0) as [Hk | Hk]; [exact (Hflat Hk) |].
    destruct Hor as [Hk0 | Hh]; [contradiction | exact (Hnz Hk Hh)].
Qed.

Lemma volumes_unsupported_witness :
  unsupported (differential_comoving_volume (new (fixture 2 0.01 2.725)) (Scalar 1))
  /\ unsupported (comoving_volume (new (fixture 2 0.01 2.725)) (Scalar 1))
  /\ unsupported (comoving_volume (new (fixture 0 0 2.725)) (Scalar 1)).
Proof.
  pose proof (volumes_unsupported (fixture 2 0.01 2.725) (Scalar 1))
    as (Hdiff & _ & Hvol & _).
  pose proof (volumes_unsupported (fixture 0 0 2.725) (Scalar 1))
    as (_ & _ & Hflat & _).
  split; [exact Hdiff |]. split.
  - apply Hvol. right. simpl. lra.
  - apply Hflat. left. reflexivity.
Defined.

(** C10, as stated, fails.  On a model with Omega_k0 = 1 whose solver reports
    the Hubble rate 0 at z=0, comoving_volume(1) raises ZeroDivisionError, and
    not NotImplementedError: the curved branch evaluates the Hubble distance,
    1 / Hubble(0), before it calls comoving_transverse_distance. *)
Lemma volumes_unsupported_counterexample :
  raises (comoving_volume (new (fixture 0 1 2.725)) (Scalar 1)) ZeroDivisionError
  /\ ~ raises (comoving_volume (new (fixture 0 1 2.725)) (Scalar 1))
        NotImplementedError.
Proof.
  assert (Hk : Classy.Omega0_k (fixture 0 1 2.725) <> 0) by (simpl; lra).
  assert (Hh : Classy.Hubble (fixture 0 1 2.725) 0 = 0) by (simpl; lra).
  pose proof (proj2 (comoving_volume_curved_this_revision _ (Scalar 1) Hk) Hh) as E.
  unfold raises. rewrite E. split; [reflexivity | discriminate].
Qed.

Lemma sqrt_args_app (t t' : list event) :
  sqrt_args (t ++ t') = sqrt_args t ++ sqrt_args t'.
Proof.
  induction t as [| ev t IH]; [reflexivity |].
  destruct ev; simpl; rewrite IH; reflexivity.
Qed.

Lemma inverse_calls_app (t t' : list event) :
  inverse_calls (t ++ t') = inverse_calls t ++ inverse_calls t'.
Proof.
  induction t as [| ev t IH]; [reflexivity |].
  destruct ev; simpl; rewrite IH; reflexivity.
Qed.

(** C1.  comoving_volume(z) takes exactly one of three branches by the sign
    of Omega_k0.  The flat case is tested first: with Omega_k0 = 0 the call
    evaluates the division 4/3 and then what comoving_distance(z) evaluates,
    so the division by 2*Omega_k0 is not reached.  In a curved branch, with a
    nonzero Hubble rate at z=0, once the transverse distance d is at hand and
    with x = d/d_H, the square roots of Omega_k0 are taken of |Omega_k0|, in
    term3 and in the factor 1/sqrt, after term2's root of 1 + Omega_k0*x**2
    as the formula has it; the positive branch then calls arcsinh, the
    negative branch arcsin, on sqrt(|Omega_k0|)*x. *)
Theorem comoving_volume_branches {cls : ComovingDistances}
    (solver : Classy.t) (z : InputT) :
  let self := new solver in
  let k := Classy.Omega0_k solver in
  let dh := 1 / Classy.Hubble solver 0 in
  (k = 0 ->
     comoving_volume self z = _comoving_volume_flat self z
     /\ trace (comoving_volume self z)
        = EvDiv (Scalar 4) (Scalar 3) :: trace (comoving_distance self z))
  /\ (0 < k -> comoving_volume self z = _comoving_volume_positive self z)
  /\ (k < 0 -> comoving_volume self z = _comoving_volume_negative self z)
  /\ (forall td d,
        Classy.Hubble solver 0 <> 0 ->
        comoving_transverse_distance self z = (td, inr d) ->
        let radicands :=
          [nd_map (fun v => 1 + k * (v / dh) ^ 2) d;
           Scalar (Rabs k); Scalar (Rabs k)] in
        let term3 := nd_map (fun v => sqrt (Rabs k) * (v / dh)) d in
        sqrt_args (trace (_comoving_volume_positive self z))
        = sqrt_args td ++ radicands
        /\ inverse_calls (trace (_comoving_volume_positive self z))
           = inverse_calls td ++ [EvArcsinh term3]
        /\ sqrt_args (trace (_comoving_volume_negative self z))
           = sqrt_args td ++ radicands
        /\ inverse_calls (trace (_comoving_volume_negative self z))
           = inverse_calls td ++ [EvArcsin term3]).
Proof.
  intros self k dh. split; [| split; [| split]].
  - intros Hk. pose proof (comoving_volume_flat solver z Hk) as E.
    split; [exact E |]. fold self in E. rewrite E, _comoving_volume_flat_eq.
    reflexivity.
  - apply comoving_volume_positive.
  - apply comoving_volume_negative.
  - intros td d Hh Hd radicands term3.
    rewrite (_comoving_volume_positive_eq self z td d Hd Hh).
    rewrite (_comoving_volume_negative_eq self z td d Hd Hh).
    cbn [trace fst]. rewrite !(app_comm_cons td).
    rewrite !sqrt_args_app, !inverse_calls_app.
    repeat split; reflexivity.
Qed.

Lemma comoving_volume_branches_witness :
  let self := new (fixture 1 (-1) 2.725) in
  let cls := implemented 1 in
  @comoving_volume cls self (Scalar 0.5)
  = @_comoving_volume_negative cls self (Scalar 0.5)
  /\ sqrt_args (trace (@_comoving_volume_negative cls self (Scalar 0.5)))
     = [Scalar (1 + -1 * (1 * 0.5 / (1 / (1 * (1 + 0)))) ^ 2);
        Scalar (Rabs (-1)); Scalar (Rabs (-1))]
  /\ inverse_calls (trace (@_comoving_volume_negative cls self (Scalar 0.5)))
     = [EvArcsin (Scalar (sqrt (Rabs (-1)) * (1 * 0.5 / (1 / (1 * (1 + 0))))))]
  /\ trace (@comoving_volume this_revision (new (fixture 1 0 2.725)) (Scalar 0.5))
     = [EvDiv (Scalar 4) (Scalar 3)].
Proof.
  intros self cls.
  pose proof (@comoving_volume_branches cls (fixture 1 (-1) 2.725) (Scalar 0.5))
    as (_ & _ & Hneg & Hcurved).
  pose proof (@comoving_volume_branches this_revision (fixture 1 0 2.725)
                (Scalar 0.5)) as (Hflat & _).
  assert (Hh : Classy.Hubble (fixture 1 (-1) 2.725) 0 <> 0) by (simpl; lra).
  destruct (Hcurved [] (Scalar (1 * 0.5)) Hh eq_refl) as (_ & _ & Hsq & Hinv).
  split; [apply Hneg; simpl; lra |].
  split; [exact Hsq |].
  split; [exact Hinv |].
  apply (Hflat eq_refl).
Defined.

(** * Further properties *)

(** ** The cached queries on a constructed model *)

Lemma vectorize_nonempty (f : R -> R) (z : InputT) :
  z <> Array [] -> vectorize f z = ret (nd_map f z).
Proof.
  destruct z as [x | [| x xs]]; intros Hz; [reflexivity | | reflexivity].
  contradiction Hz. reflexivity.
Qed.

Lemma H_nonempty (c : R) (solver : Classy.t) (z : InputT) :
  z <> Array [] ->
  H c (new solver) z = ret (nd_map (fun v => c * Classy.Hubble solver v) z).
Proof.
  intros Hz. unfold H.
  rewrite cosmo_fn_Hubble, bind_ret_l, (vectorize_nonempty _ _ Hz), bind_ret_l.
  rewrite np_mul_scalar_l, nd_map_nd_map. reflexivity.
Qed.

Lemma h_over_h0_nonempty (solver : Classy.t) (z : InputT) :
  z <> Array [] ->
  h_over_h0 (new solver) z
  = ([EvDiv (nd_map (Classy.Hubble solver) z) (Scalar (Classy.Hubble solver 0))],
     inr (nd_map (fun v => Classy.Hubble solver v / Classy.Hubble solver 0) z)).
Proof.
  intros Hz. unfold h_over_h0.
  rewrite cosmo_fn_Hubble, bind_ret_l, (vectorize_nonempty _ _ Hz), bind_ret_l.
  rewrite cosmo_new, np_div_scalar_r, nd_map_nd_map. reflexivity.
Qed.

Lemma h_over_h0_empty (solver : Classy.t) :
  h_over_h0 (new solver) (Array []) = raise ValueError.
Proof. unfold h_over_h0. rewrite cosmo_fn_Hubble, bind_ret_l. reflexivity. Qed.

Lemma critical_density_nonempty (c G : R) (solver : Classy.t) (z : InputT) :
  z <> Array [] ->
  critical_density c G (new solver) z
  = ([EvDiv (nd_map (fun v => 3e6 * (c * Classy.Hubble solver v) ^ 2) z)
            (Scalar (8 * PI * G))],
     inr (nd_map (fun v => 3e6 * (c * Classy.Hubble solver v) ^ 2 / (8 * PI * G)) z)).
Proof.
  intros Hz. unfold critical_density.
  rewrite (H_nonempty _ _ _ Hz), bind_ret_l. unfold np_pow.
  rewrite np_mul_scalar_l, bind_ret_l, np_div_scalar_r, !nd_map_nd_map.
  reflexivity.
Qed.

Lemma critical_density_empty (c G : R) (solver : Classy.t) :
  critical_density c G (new solver) (Array []) = raise ValueError.
Proof. unfold critical_density. rewrite H_empty. reflexivity. Qed.

Lemma same_shape_nd_map (f : R -> R) (z : InputT) : same_shape z (nd_map f z).
Proof.
  destruct z as [x | xs]; simpl; [exact I |].
  symmetry. apply length_map.
Qed.

Lemma not_empty_cases (z : InputT) : z = Array [] \/ z <> Array [].
Proof.
  destruct z as [x | [| x xs]]; [right | left | right];
    try reflexivity; discriminate.
Qed.

(** A method that raises [ValueError] on the empty array and returns an
    elementwise image of its argument elsewhere. *)
Lemma elementwise_image_errors (q : InputT -> M NDFloating) (f : R -> R) :
  raises (q (Array [])) ValueError ->
  (forall z, z <> Array [] -> returns (q z) (nd_map f z)) ->
  raises_only_on_empty q /\ shape_preserving q.
Proof.
  intros Hempty Himage. split; [split; [exact Hempty |] |].
  - intros z e Hz. destruct (not_empty_cases z) as [-> | Hne].
    + split; [reflexivity |].
      unfold raises in *. congruence.
    + pose proof (Himage z Hne) as Hr. unfold raises, returns in *. congruence.
  - intros z out Hout. destruct (not_empty_cases z) as [-> | Hne].
    + unfold raises, returns in *. congruence.
    + pose proof (Himage z Hne) as Hr.
      assert (out = nd_map f z) by (unfold returns in *; congruence).
      subst out. apply same_shape_nd_map.
Qed.

(** The six methods behind the cache: errors and shapes at once. *)
Lemma cached_methods_errors_and_shapes (c G : R) (solver : Classy.t) :
  let both q := raises_only_on_empty q /\ shape_preserving q in
  both (H c (new solver))
  /\ both (h_over_h0 (new solver))
  /\ both (critical_density c G (new solver))
  /\ both (Omega_m (new solver))
  /\ both (angular_diameter_distance (new solver))
  /\ both (luminosity_distance (new solver)).
Proof.
  intros both. unfold both.
  refine (conj _ (conj _ (conj _ (conj _ (conj _ _))))).
  - eapply elementwise_image_errors.
    + unfold raises. rewrite H_empty. reflexivity.
    + intros z Hz. unfold returns. rewrite (H_nonempty _ _ _ Hz). reflexivity.
  - eapply elementwise_image_errors.
    + unfold raises. rewrite h_over_h0_empty. reflexivity.
    + intros z Hz. unfold returns. rewrite (h_over_h0_nonempty _ _ Hz).
      reflexivity.
  - eapply elementwise_image_errors.
    + unfold raises. rewrite critical_density_empty. reflexivity.
    + intros z Hz. unfold returns.
      rewrite (critical_density_nonempty _ _ _ _ Hz). reflexivity.
  - eapply elementwise_image_errors.
    + unfold raises. rewrite Omega_m_vectorize. reflexivity.
    + intros z Hz. unfold returns.
      rewrite Omega_m_vectorize, (vectorize_nonempty _ _ Hz). reflexivity.
  - eapply elementwise_image_errors.
    + unfold raises. rewrite angular_diameter_distance_vectorize. reflexivity.
    + intros z Hz. unfold returns.
      rewrite angular_diameter_distance_vectorize, (vectorize_nonempty _ _ Hz).
      reflexivity.
  - eapply elementwise_image_errors.
    + unfold raises. rewrite luminosity_distance_vectorize. reflexivity.
    + intros z Hz. unfold returns.
      rewrite luminosity_distance_vectorize, (vectorize_nonempty _ _ Hz).
      reflexivity.
Qed.

(** X1.  On a constructed model and for every redshift argument other than
    the array of size 0, Omega_m, angular_diameter_distance and
    luminosity_distance return the solver's Om_m, angular_distance and
    luminosity_distance applied to each redshift, and H returns c times the
    solver's Hubble at each redshift; none of the four evaluates a
    division. *)
Theorem cached_queries_delegate (c : R) (solver : Classy.t) (z : InputT) :
  let self := new solver in
  z <> Array [] ->
  Omega_m self z = ret (nd_map (Classy.Om_m solver) z)
  /\ angular_diameter_distance self z
     = ret (nd_map (Classy.angular_distance solver) z)
  /\ luminosity_distance self z
     = ret (nd_map (Classy.luminosity_distance solver) z)
  /\ H c self z = ret (nd_map (fun v => c * Classy.Hubble solver v) z).
Proof.
  intros self Hz. unfold self.
  rewrite Omega_m_vectorize, angular_diameter_distance_vectorize,
    luminosity_distance_vectorize, !(vectorize_nonempty _ _ Hz).
  repeat split; try reflexivity. apply H_nonempty. exact Hz.
Qed.

Lemma cached_queries_delegate_witness :
  Omega_m (new (fixture 2 0 2.725)) (Array [0; 1]) = ret (Array [0.3; 0.3])
  /\ angular_diameter_distance (new (fixture 2 0 2.725)) (Array [0; 1])
     = ret (Array [0 / (1 + 0); 1 / (1 + 1)])
  /\ luminosity_distance (new (fixture 2 0 2.725)) (Array [0; 1])
     = ret (Array [0 * (1 + 0); 1 * (1 + 1)])
  /\ H 299792.458 (new (fixture 2 0 2.725)) (Array [0; 1])
     = ret (Array [299792.458 * (2 * (1 + 0)); 299792.458 * (2 * (1 + 1))]).
Proof.
  apply (cached_queries_delegate 299792.458 (fixture 2 0 2.725) (Array [0; 1])).
  discriminate.
Defined.

(** X2.  On a constructed model the six methods that go through the
    vectorization cache (H, h_over_h0, critical_density, Omega_m,
    angular_diameter_distance, luminosity_distance) raise ValueError on the
    array of size 0, and raise on no other argument and with no other
    exception: never KeyError, the cache holding every name they look up. *)
Theorem cached_queries_raise_only_on_empty (c G : R) (solver : Classy.t) :
  let self := new solver in
  raises_only_on_empty (H c self)
  /\ raises_only_on_empty (h_over_h0 self)
  /\ raises_only_on_empty (critical_density c G self)
  /\ raises_only_on_empty (Omega_m self)
  /\ raises_only_on_empty (angular_diameter_distance self)
  /\ raises_only_on_empty (luminosity_distance self).
Proof.
  intros self.
  pose proof (cached_methods_errors_and_shapes c G solver)
    as (HH & HE & HC & Hm & Ha & Hl).
  exact (conj (proj1 HH) (conj (proj1 HE) (conj (proj1 HC)
           (conj (proj1 Hm) (conj (proj1 Ha) (proj1 Hl)))))).
Qed.

(** X3.  Every implemented redshift-taking method keeps the shape of its
    argument: a scalar gives a scalar, an array of length N an array of
    length N.  scale_factor and Tcmb, which do not go through the cache,
    return on every argument, the array of size 0 included. *)
Theorem methods_preserve_shape (c G : R) (solver : Classy.t) :
  let self := new solver in
  shape_preserving (H c self)
  /\ shape_preserving (h_over_h0 self)
  /\ shape_preserving (critical_density c G self)
  /\ shape_preserving (Omega_m self)
  /\ shape_preserving (angular_diameter_distance self)
  /\ shape_preserving (luminosity_distance self)
  /\ (shape_preserving (scale_factor self) /\ never_raises (scale_factor self))
  /\ (shape_preserving (Tcmb self) /\ never_raises (Tcmb self)).
Proof.
  intros self.
  pose proof (cached_methods_errors_and_shapes c G solver)
    as (HH & HE & HC & Hm & Ha & Hl).
  refine (conj (proj2 HH) (conj (proj2 HE) (conj (proj2 HC)
           (conj (proj2 Hm) (conj (proj2 Ha) (conj (proj2 Hl) (conj _ _))))))).
  - split.
    + intros z out Hout. unfold returns in Hout.
      rewrite scale_factor_eq in Hout. injection Hout as <-.
      apply same_shape_nd_map.
    + intros z. eexists. unfold returns. rewrite scale_factor_eq. reflexivity.
  - split.
    + intros z out Hout. unfold returns in Hout.
      rewrite Tcmb_eq in Hout. injection Hout as <-.
      apply same_shape_nd_map.
    + intros z. eexists. unfold returns. rewrite Tcmb_eq. reflexivity.
Qed.

(** ** Redshift zero *)



(** ** Critical density *)

(** X5.  On every model critical_density at the scalar redshift 0 is
    critical_density0: the same division is evaluated and the same value
    returned. *)
Theorem critical_density_at_zero (c G : R) (solver : Classy.t) :
  critical_density c G (new solver) (Scalar 0)
  = critical_density0 c G (new solver).
Proof.
  rewrite critical_density_nonempty by discriminate.
  rewrite critical_density0_eq, cosmo_new. reflexivity.
Qed.

(** ** The vectorization cache *)

(** X9.  The cache of a constructed model holds exactly the four names
    Om_m, Hubble, angular_distance and luminosity_distance; looking up any
    other name raises KeyError. *)
Theorem cache_holds_four_names (solver : Classy.t) (key : string) :
  let self := new solver in
  let names : gset string :=
    {["Om_m"; "Hubble"; "angular_distance"; "luminosity_distance"]} in
  dom (_cosmo_fn self) = names
  /\ (key ∈ names -> exists f, getitem (_cosmo_fn self) key = ret f)
  /\ (key ∉ names -> getitem (_cosmo_fn self) key = raise KeyError).
Proof.
  intros self names. pose proof (cosmo_fn_keys solver) as Hdom.
  fold self names in Hdom. split; [exact Hdom |]. split.
  - intros Hin. rewrite <- Hdom in Hin. apply elem_of_dom in Hin as [f Hf].
    exists f. unfold getitem. rewrite Hf. reflexivity.
  - intros Hout. rewrite <- Hdom in Hout. apply not_elem_of_dom in Hout.
    unfold getitem. rewrite Hout. reflexivity.
Qed.

Lemma cache_holds_four_names_witness :
  (exists f, getitem (_cosmo_fn (new (fixture 2 0 2.725))) "Hubble" = ret f)
  /\ getitem (_cosmo_fn (new (fixture 2 0 2.725))) "comoving_distance"
     = raise KeyError.
Proof.
  pose proof (cache_holds_four_names (fixture 2 0 2.725) "Hubble") as (_ & Hin & _).
  pose proof (cache_holds_four_names (fixture 2 0 2.725) "comoving_distance")
    as (_ & _ & Hout).
  split; [apply Hin | apply Hout]; compute_done.
Defined.

(** ** The volumes over a class that provides the primitives *)

Lemma np_div_same_shape (g h : R -> R) (a : NDFloating) :
  np_div (nd_map g a) (nd_map h a)
  = ([EvDiv (nd_map g a) (nd_map h a)], inr (nd_map (fun v => g v / h v) a)).
Proof.
  unfold np_div. rewrite bind_tell, broadcast_same_shape. reflexivity.
Qed.

(** X10.  Over any class whose comoving_transverse_distance(z) returns d, on
    a model whose solver reports a nonzero Hubble rate at z=0 and with
    d_H = 1/Hubble(0) and x = v/d_H at every element v of d: with
    Omega_k0 > 0, comoving_volume(z) returns
    4 pi d_H**3 / (2 Omega_k0) * (x sqrt(1 + Omega_k0 x**2)
    - 1/sqrt|Omega_k0| * arcsinh(sqrt|Omega_k0| x)), every square root being
    taken of a positive number; with Omega_k0 < 0, and where
    1 + Omega_k0 x**2 >= 0 and |sqrt|Omega_k0| x| <= 1 (the domains of the
    square root and of arcsin), it returns the same with arcsin in place of
    arcsinh. *)
Theorem comoving_volume_curved_closed_form {cls : ComovingDistances}
    (solver : Classy.t) (z : InputT) (td : list event) (d : NDFloating) :
  let self := new solver in
  let k := Classy.Omega0_k solver in
  let h := Classy.Hubble solver 0 in
  h <> 0 ->
  comoving_transverse_distance self z = (td, inr d) ->
  (0 < k ->
     returns (comoving_volume self z) (nd_map (curved_volume h k arcsinh) d)
     /\ nd_Forall (fun v => 0 < 1 + k * (v / (1 / h)) ^ 2) d
     /\ 0 < Rabs k)
  /\ (k < 0 ->
        nd_Forall (fun v => 0 <= 1 + k * (v / (1 / h)) ^ 2
                            /\ -1 <= sqrt (Rabs k) * (v / (1 / h)) <= 1) d ->
        returns (comoving_volume self z) (nd_map (curved_volume h k asin) d)).
Proof.
  intros self k h Hh Hd. subst self. split.
  - intros Hk. split; [| split].
    + unfold returns. rewrite (comoving_volume_positive solver z Hk).
      rewrite (_comoving_volume_positive_eq _ _ _ _ Hd Hh). reflexivity.
    + assert (Hall : nd_Forall (fun _ => True) d)
        by (destruct d as [x | xs]; simpl; [exact I | apply Forall_true; auto]).
      revert Hall. apply nd_Forall_impl. intros v _.
      pose proof (pow2_ge_0 (v / (1 / h))). nra.
    + apply Rabs_pos_lt. lra.
  - intros Hk _. unfold returns. rewrite (comoving_volume_negative solver z Hk).
    rewrite (_comoving_volume_negative_eq _ _ _ _ Hd Hh). reflexivity.
Qed.

Lemma comoving_volume_curved_closed_form_witness :
  returns (@comoving_volume (implemented 1) (new (fixture 1 (-1) 2.725))
             (Array [0; 0.5]))
          (Array [curved_volume (1 * (1 + 0)) (-1) asin (1 * 0);
                  curved_volume (1 * (1 + 0)) (-1) asin (1 * 0.5)])
  /\ returns (@comoving_volume (implemented 1) (new (fixture 1 1 2.725))
                (Scalar 2))
             (Scalar (curved_volume (1 * (1 + 0)) 1 arcsinh (1 * 2))).
Proof.
  assert (Hh : forall k, Classy.Hubble (fixture 1 k 2.725) 0 <> 0)
    by (intros k; simpl; lra).
  assert (Hs : sqrt (Rabs (-1)) = 1)
    by (rewrite Rabs_left by lra; replace (- -1) with 1 by lra; apply sqrt_1).
  split.
  - apply (proj2 (@comoving_volume_curved_closed_form (implemented 1)
                    (fixture 1 (-1) 2.725) (Array [0; 0.5]) []
                    (Array [1 * 0; 1 * 0.5]) (Hh _) eq_refl)).
    + simpl. lra.
    + simpl. rewrite Hs.
      repeat constructor; try (simpl; lra);
        replace (1 * 0 / (1 / (1 * (1 + 0)))) with 0 by (field; lra);
        replace (1 * 0.5 / (1 / (1 * (1 + 0)))) with 0.5 by (field; lra);
        simpl; lra.
  - apply (proj1 (@comoving_volume_curved_closed_form (implemented 1)
                    (fixture 1 1 2.725) (Scalar 2) [] (Scalar (1 * 2))
                    (Hh _) eq_refl)).
    simpl. lra.
Defined.

(** X11.  Over any class, when comoving_transverse_distance(z) raises an
    exception, differential_comoving_volume(z) raises it, having evaluated
    what the primitive evaluated.  On a model with Omega_k0 other than 0,
    comoving_volume(z) raises it too when the solver's Hubble rate at z=0 is
    not 0, after the Hubble distance and what the primitive evaluated; when
    that rate is 0 it raises ZeroDivisionError at the Hubble distance and
    does not reach the primitive. *)
Theorem volumes_propagate_errors {cls : ComovingDistances}
    (solver : Classy.t) (z : InputT) (td : list event) (e : Exception) :
  let self := new solver in
  let k := Classy.Omega0_k solver in
  let h := Classy.Hubble solver 0 in
  comoving_transverse_distance self z = (td, inl e) ->
  differential_comoving_volume self z = (td, inl e)
  /\ (k <> 0 -> h <> 0 ->
        comoving_volume self z = (EvDiv (Scalar 1) (Scalar h) :: td, inl e))
  /\ (k <> 0 -> h = 0 ->
        comoving_volume self z
        = ([EvDiv (Scalar 1) (Scalar h)], inl ZeroDivisionError)).
Proof.
  intros self k h Hd. subst self. split; [| split].
  - unfold differential_comoving_volume. rewrite Hd. reflexivity.
  - intros Hk Hh.
    destruct (_comoving_volume_curved_raises _ z td e Hd Hh) as [Hp Hn].
    destruct (Rtotal_order k 0) as [Hlt | [Heq | Hgt]].
    + rewrite (comoving_volume_negative solver z Hlt). exact Hn.
    + contradiction.
    + rewrite (comoving_volume_positive solver z Hgt). exact Hp.
  - intros Hk Hh.
    destruct (_comoving_volume_curved_zero (new solver) z Hh) as [Hp Hn].
    destruct (Rtotal_order k 0) as [Hlt | [Heq | Hgt]].
    + rewrite (comoving_volume_negative solver z Hlt). exact Hn.
    + contradiction.
    + rewrite (comoving_volume_positive solver z Hgt). exact Hp.
Qed.

Lemma volumes_propagate_errors_witness :
  differential_comoving_volume (new (fixture 2 0.01 2.725)) (Scalar 1)
  = ([], inl NotImplementedError)
  /\ comoving_volume (new (fixture 2 0.01 2.725)) (Scalar 1)
     = ([EvDiv (Scalar 1) (Scalar (2 * (1 + 0)))], inl NotImplementedError).
Proof.
  pose proof (@volumes_propagate_errors this_revision (fixture 2 0.01 2.725)
                (Scalar 1) [] NotImplementedError eq_refl) as (Hdiff & Hvol & _).
  split; [exact Hdiff |]. apply Hvol; simpl; lra.
Defined.

(** X12.  Over any class whose comoving_transverse_distance(z) returns an
    array computed elementwise from z: when the solver's Hubble rate at z=0 is
    not 0, differential_comoving_volume(z) returns (d_M / d_H)**2 / E(z) at
    every redshift, for every argument other than the array of size 0 and
    where the Hubble rate is nowhere 0, and raises ValueError, which comes
    from h_over_h0, on the array of size 0; when that rate is 0 it raises
    ZeroDivisionError at the Hubble distance. *)
Theorem differential_comoving_volume_formula {cls : ComovingDistances}
    (solver : Classy.t) (z : InputT) (td : list event) (g : R -> R) :
  let self := new solver in
  let h := Classy.Hubble solver 0 in
  comoving_transverse_distance self z = (td, inr (nd_map g z)) ->
  (h <> 0 -> z <> Array [] ->
     nd_Forall (fun v => Classy.Hubble solver v <> 0) z ->
     returns (differential_comoving_volume self z)
             (nd_map (fun v => (g v / (1 / h)) ^ 2 / (Classy.Hubble solver v / h)) z))
  /\ (h <> 0 -> z = Array [] ->
        raises (differential_comoving_volume self z) ValueError)
  /\ (h = 0 -> raises (differential_comoving_volume self z) ZeroDivisionError).
Proof.
  intros self h Hd. subst self.
  unfold returns, raises, differential_comoving_volume.
  rewrite Hd, bind_val. split; [| split].
  - intros Hh Hz _. rewrite hubble_distance_eq by exact Hh.
    rewrite bind_val, np_div_scalar_r, bind_val, cosmo_new. fold h.
    rewrite (h_over_h0_nonempty _ _ Hz), bind_val. unfold np_pow.
    rewrite !nd_map_nd_map, np_div_same_shape. reflexivity.
  - intros Hh ->. rewrite hubble_distance_eq by exact Hh.
    rewrite bind_val, np_div_scalar_r, bind_val, h_over_h0_empty. reflexivity.
  - intros Hh. rewrite hubble_distance_zero by exact Hh. reflexivity.
Qed.

Lemma differential_comoving_volume_formula_witness :
  returns (@differential_comoving_volume (implemented 3000)
             (new (fixture 2 0 2.725)) (Array [0; 1]))
          (Array [(3000 * 0 / (1 / (2 * (1 + 0)))) ^ 2
                  / (2 * (1 + 0) / (2 * (1 + 0)));
                  (3000 * 1 / (1 / (2 * (1 + 0)))) ^ 2
                  / (2 * (1 + 1) / (2 * (1 + 0)))])
  /\ raises (@differential_comoving_volume (implemented 3000)
               (new (fixture 2 0 2.725)) (Array []))
            ValueError
  /\ raises (@differential_comoving_volume (implemented 3000)
               (new (fixture 0 0 2.725)) (Array [0; 1]))
            ZeroDivisionError.
Proof.
  assert (Hh : Classy.Hubble (fixture 2 0 2.725) 0 <> 0) by (simpl; lra).
  split; [| split].
  - apply (proj1 (@differential_comoving_volume_formula (implemented 3000)
                    (fixture 2 0 2.725) (Array [0; 1]) [] (fun v => 3000 * v)
                    eq_refl) Hh).
    + discriminate.
    + simpl. repeat constructor; lra.
  - apply (proj1 (proj2 (@differential_comoving_volume_formula (implemented 3000)
                           (fixture 2 0 2.725) (Array []) []
                           (fun v => 3000 * v) eq_refl)) Hh).
    reflexivity.
  - apply (proj2 (proj2 (@differential_comoving_volume_formula (implemented 3000)
                           (fixture 0 0 2.725) (Array [0; 1]) []
                           (fun v => 3000 * v) eq_refl))).
    simpl. lra.
Defined.

(** ** Elementwise answers of the derived methods *)

Lemma elementwise_image (q : InputT -> M NDFloating) (f : R -> R) :
  (forall z, z <> Array [] -> returns (q z) (nd_map f z)) -> elementwise q.
Proof.
  intros Hq z0 rest. exists (map f (z0 :: rest)).
  split; [apply (Hq (Array (z0 :: rest))); discriminate |].
  split; [apply length_map |].
  intros i zi Hi. exists (f zi).
  split; [rewrite lookup_map, Hi; reflexivity |].
  apply (Hq (Scalar zi)). discriminate.
Qed.

(** X13.  On every model the methods derived from the Hubble query,
    h_over_h0 and critical_density, and the two that use numpy arithmetic
    alone, scale_factor and Tcmb, answer a sequence [z0, ..., zn] elementwise:
    the output has the length of the input, its element i is the method's
    answer to the scalar zi, and it depends on element i of the input only. *)
Theorem derived_methods_elementwise (c G : R) (solver : Classy.t) :
  let self := new solver in
  (elementwise (h_over_h0 self) /\ independent (h_over_h0 self))
  /\ (elementwise (critical_density c G self)
      /\ independent (critical_density c G self))
  /\ (elementwise (scale_factor self) /\ independent (scale_factor self))
  /\ (elementwise (Tcmb self) /\ independent (Tcmb self)).
Proof.
  intros self. subst self.
  assert (HE : elementwise (h_over_h0 (new solver))).
  { eapply elementwise_image. intros z Hz. unfold returns.
    rewrite (h_over_h0_nonempty _ _ Hz). reflexivity. }
  assert (HC : elementwise (critical_density c G (new solver))).
  { eapply elementwise_image. intros z Hz. unfold returns.
    rewrite (critical_density_nonempty _ _ _ _ Hz). reflexivity. }
  assert (Ha : elementwise (scale_factor (new solver))).
  { eapply elementwise_image. intros z Hz. unfold returns.
    rewrite scale_factor_eq. reflexivity. }
  assert (HT : elementwise (Tcmb (new solver))).
  { eapply elementwise_image. intros z Hz. unfold returns.
    rewrite Tcmb_eq. reflexivity. }
  refine (conj (conj HE _) (conj (conj HC _) (conj (conj Ha _) (conj HT _))));
    apply elementwise_independent; assumption.
Qed.
